(** * Loop-Tech-Eval: the board-text heuristics of [DashboardPage]

    A shallow embedding of [DashboardPage.getTaskColumn] and
    [DashboardPage.getTaskTags] (class DashboardPage) together with the
    part of JavaScript's [String.prototype.indexOf] they rely on, and the
    properties of the column / tag inference stated in the specification.
    The methods built on them, [verifyTaskColumn] and [verifyTaskTags], and
    the validation of test data, [validateTestCase], follow.

    Conventions.  A JavaScript string is a finite sequence of code units and
    [indexOf] never looks inside a code unit, so strings are Stdlib [string]s.
    Indices are [Z], [-1] being the "not found" answer of [indexOf].  The
    Playwright page is an external collaborator: it is represented by the two
    queries the methods make of it. *)

From Stdlib Require Import ZArith List Bool Lia.
From Stdlib Require Import Strings.Ascii Strings.String.
Import ListNotations.

Local Open Scope string_scope.
Local Open Scope Z_scope.

(* ================================================================== *)
(** ** JavaScript strings *)

Module JS.

(** The suffix of [s] that starts at code unit [n] (empty past the end). *)
Fixpoint drop (n : nat) (s : string) : string :=
  match n, s with
  | O, _ => s
  | S n', String _ s' => drop n' s'
  | S _, EmptyString => EmptyString
  end.

(** StringIndexOf: scan [s] left to right, [k] being the absolute index of
    the first code unit of [s]; the empty pattern matches at once, also at
    the very end of the string. *)
Fixpoint search (pat s : string) (k : nat) : option nat :=
  if prefix pat s then Some k
  else match s with
       | EmptyString => None
       | String _ s' => search pat s' (S k)
       end.

(** [s.indexOf(pat, position)]: the position is clamped to [0, s.length],
    the answer is the least matching index at or after it, or [-1]. *)
Definition indexOf (s pat : string) (position : Z) : Z :=
  let len := Z.of_nat (String.length s) in
  let start := Z.to_nat (Z.min (Z.max position 0) len) in
  match search pat (drop start s) start with
  | Some k => Z.of_nat k
  | None => -1
  end.

(** How a method call completes: with a value, or with a thrown [Error]
    carrying its message. *)
Inductive Completion : Type :=
| Return (value : string)
| Throw (message : string).

End JS.
Export JS.

(* ================================================================== *)
(** ** The page objects *)

(** What the two methods ask of the Playwright [page]:
    [page.textContent(selector)] and
    [page.getByText(text, { exact: true }).count()]. *)
Record Page : Type := {
  textContent : string -> string;
  getByTextExactCount : string -> nat
}.

(** A [DashboardPage] instance: the inherited [page] field and the
    [COLUMNS] field set by the constructor. *)
Record DashboardPage : Type := {
  page : Page;
  COLUMNS : list string
}.

(** [new DashboardPage(page)]. *)
Definition newDashboardPage (p : Page) : DashboardPage :=
  {| page := p; COLUMNS := ["To Do"; "In Progress"; "Review"; "Done"] |}.

(** One turn of the inner loop of [getTaskColumn]: the candidate end of the
    section of [columnName], updated for the column [nextCol]. *)
Definition nextColumnStep (pageText columnName : string) (columnIndex : Z)
    (nextColumnIndex : Z) (nextCol : string) : Z :=
  if (nextCol =? columnName)%string then nextColumnIndex
  else
    let nextPattern := nextCol ++ " (" in
    let nextIdx := indexOf pageText nextPattern (columnIndex + 1) in
    if (nextIdx >? columnIndex) && (nextIdx <? nextColumnIndex)
    then nextIdx
    else nextColumnIndex.

(** The inner loop: "find where the next column starts". *)
Definition findNextColumnIndex (this : DashboardPage) (pageText columnName : string)
    (columnIndex : Z) : Z :=
  fold_left (nextColumnStep pageText columnName columnIndex)
            (COLUMNS this) (Z.of_nat (String.length pageText)).

(** The outer loop of [getTaskColumn] over the columns still to visit. *)
Fixpoint columnLoop (this : DashboardPage) (pageText taskName : string)
    (remaining : list string) : Completion :=
  match remaining with
  | [] => Throw ("Could not determine column for task: " ++ taskName)
  | columnName :: rest =>
      let columnPattern := columnName ++ " (" in
      let columnIndex := indexOf pageText columnPattern 0 in
      if columnIndex =? -1 then columnLoop this pageText taskName rest
      else
        let nextColumnIndex :=
          findNextColumnIndex this pageText columnName columnIndex in
        let taskIndex := indexOf pageText taskName columnIndex in
        if (taskIndex >? columnIndex) && (taskIndex <? nextColumnIndex)
        then Return columnName
        else columnLoop this pageText taskName rest
  end.

(** [DashboardPage.getTaskColumn(taskName)]. *)
Definition getTaskColumn (this : DashboardPage) (taskName : string) : Completion :=
  let pageText := textContent (page this) "body" in
  columnLoop this pageText taskName (COLUMNS this).

(** The tag vocabulary of [getTaskTags]. *)
Definition possibleTags : list string :=
  ["Feature"; "Bug"; "Design"; "High Priority"].

(** [DashboardPage.getTaskTags(taskName)]: [foundTags.push(tag)] for every
    vocabulary tag whose exact-text locator matches at least one element. *)
Definition getTaskTags (this : DashboardPage) (taskName : string) : list string :=
  fold_left
    (fun (foundTags : list string) tag =>
       let count := getByTextExactCount (page this) tag in
       if (0 <? count)%nat then (foundTags ++ [tag])%list else foundTags)
    possibleTags [].

(* ================================================================== *)
(** ** Vocabulary of the specification *)

(** The header marker of a column: its name followed by [" ("]. *)
Definition marker (c : string) : string := c ++ " (".

(** [pat] occurs in [text] at index [i]: [text] is some [pre], of length [i],
    then [pat], then some [post]. *)
Definition occurs_at (pat text : string) (i : Z) : Prop :=
  exists pre post, text = pre ++ pat ++ post /\ Z.of_nat (String.length pre) = i.

Definition occurs (pat text : string) : Prop :=
  exists i, occurs_at pat text i.

(** [i] is the index of the first occurrence of [pat] at or after [from]. *)
Definition first_from (pat text : string) (from i : Z) : Prop :=
  from <= i /\ occurs_at pat text i /\
  forall j, from <= j < i -> ~ occurs_at pat text j.

(** The start of the span of column [c]: the first occurrence of its marker. *)
Definition span_start (text c : string) (s : Z) : Prop :=
  first_from (marker c) text 0 s.

(** The marker of a column of [cols] other than [c] occurs at index [j]. *)
Definition other_marker_at (cols : list string) (text c : string) (j : Z) : Prop :=
  exists c', In c' cols /\ c' <> c /\ occurs_at (marker c') text j.

(** The end of the span that starts at [s]: the least index after [s] that
    carries the marker of another column, the length of the text when there
    is none. *)
Definition span_end (cols : list string) (text c : string) (s e : Z) : Prop :=
  (s < e /\ other_marker_at cols text c e /\
   forall j, s < j < e -> ~ other_marker_at cols text c j)
  \/
  (e = Z.of_nat (String.length text) /\
   forall j, s < j -> ~ other_marker_at cols text c j).

(** Column [c] claims the task: its marker is present and the first
    occurrence of the task name at or after the marker lies strictly between
    the marker and the end of the span. *)
Definition claims_task (cols : list string) (text task c : string) : Prop :=
  exists s e ti,
    span_start text c s /\ span_end cols text c s e /\
    first_from task text s ti /\ s < ti < e.

(** The same with the start of the span included, as the specification
    words it: the span is the half-open interval from [s] to [e]. *)
Definition claims_task_closed (cols : list string) (text task c : string) : Prop :=
  exists s e ti,
    span_start text c s /\ span_end cols text c s e /\
    first_from task text s ti /\ s <= ti < e.

(** A list is a subsequence of another: same relative order, some elements
    left out. *)
Inductive subsequence {A : Type} : list A -> list A -> Prop :=
| subseq_nil : subsequence [] []
| subseq_skip x l1 l2 : subsequence l1 l2 -> subsequence l1 (x :: l2)
| subseq_keep x l1 l2 : subsequence l1 l2 -> subsequence (x :: l1) (x :: l2).

(** The body text of the page a [DashboardPage] drives. *)
Definition boardText (this : DashboardPage) : string :=
  textContent (page this) "body".

(** A page whose body text is [text] and on which the exact-text locator
    counts [count tag] elements. *)
Definition mkPage (text : string) (count : string -> nat) : Page :=
  {| textContent := fun _ => text; getByTextExactCount := count |}.

(** A page given by its body text alone (no element matches any tag). *)
Definition textPage (text : string) : Page := mkPage text (fun _ => O).

(** [t] occurs in [b] exactly once, at index [i]. *)
Definition sole_occurrence (t b : string) (i : Z) : Prop :=
  occurs_at t b i /\ forall q, occurs_at t b q -> q = i.

(** Index [p] lies in the span of column [c], the span being the half-open
    interval from the marker to the end boundary. *)
Definition in_span (cols : list string) (text c : string) (p : Z) : Prop :=
  exists s e, span_start text c s /\ span_end cols text c s e /\ s <= p < e.

(** Index [p] lies in the span of column [c], after the first code unit of
    the marker. *)
Definition inside_span (cols : list string) (text c : string) (p : Z) : Prop :=
  exists s e, span_start text c s /\ span_end cols text c s e /\ s < p < e.

(** The message of the error [getTaskColumn] throws for [taskName]. *)
Definition notFoundMessage (taskName : string) : string :=
  "Could not determine column for task: " ++ taskName.

(** An exact-text locator that matches one element for each of [tags] and
    nothing else. *)
Definition matchesOnly (tags : list string) : string -> nat :=
  fun t => if existsb (String.eqb t) tags then 1%nat else 0%nat.

(** The board of the specification's concrete scenario (no "Review" header). *)
Definition scenarioText : string :=
  "To Do (2) Implement auth Fix bug In Progress (1) Design updates Done (0)".

Definition scenarioBoard : DashboardPage := newDashboardPage (textPage scenarioText).

(* ================================================================== *)
(** ** The verification methods of [DashboardPage] *)

(** How a call completes when its value is not a string: with a value, or
    with a thrown [Error] carrying its message. *)
Inductive Outcome (A : Type) : Type :=
| Returned (value : A)
| Thrown (message : string).

Arguments Returned {A} value.
Arguments Thrown {A} message.

(** The object [verifyTaskColumn] resolves to. *)
Module ColumnResult.
Record t : Type := mk {
  success : bool;
  actual : string;
  expected : string;
  message : string
}.
End ColumnResult.

(** [DashboardPage.verifyTaskColumn(taskName, expectedColumn)]: the error of
    [getTaskColumn] is not caught. *)
Definition verifyTaskColumn (this : DashboardPage) (taskName expectedColumn : string)
    : Outcome ColumnResult.t :=
  match getTaskColumn this taskName with
  | Throw error => Thrown error
  | Return actualColumn =>
      let success := (actualColumn =? expectedColumn)%string in
      Returned
        {| ColumnResult.success := success;
           ColumnResult.actual := actualColumn;
           ColumnResult.expected := expectedColumn;
           ColumnResult.message :=
             if success
             then "Task '" ++ taskName ++ "' is correctly in '" ++ expectedColumn
                  ++ "' column"
             else "Task '" ++ taskName ++ "' is in '" ++ actualColumn
                  ++ "' but expected '" ++ expectedColumn ++ "'" |}
  end.

(** The browser as [verifyTaskTags] drives it.  Each action is made on the
    first element the exact-text locator of a tag matches (but for the plain
    pause [page.waitForTimeout]); it resolves ([true]) or rejects ([false])
    and leaves the browser in a new state. *)
Record Browser (World : Type) : Type := {
  waitForVisible : string -> World -> bool * World;
  scrollIntoViewIfNeeded : string -> World -> bool * World;
  hover : string -> World -> bool * World;
  waitForTimeout : Z -> World -> bool * World
}.

Arguments waitForVisible {World} _ _ _.
Arguments scrollIntoViewIfNeeded {World} _ _ _.
Arguments hover {World} _ _ _.
Arguments waitForTimeout {World} _ _ _.

(** The object [verifyTaskTags] resolves to. *)
Module TagsResult.
Record t : Type := mk {
  success : bool;
  actual : list string;
  expected : list string;
  missing : list string;
  message : string
}.
End TagsResult.

(** The [try] block of [verifyTaskTags] for one tag: wait for the tag to be
    visible, scroll to it, hover, pause 300 ms; the first action that rejects
    ends the block.  [true] when the block runs to its end, [false] when the
    [catch] clause is entered. *)
Definition highlightTag {World : Type} (browser : Browser World) (tag : string)
    (w : World) : bool * World :=
  let (visible, w1) := waitForVisible browser tag w in
  if negb visible then (false, w1)
  else
    let (scrolled, w2) := scrollIntoViewIfNeeded browser tag w1 in
    if negb scrolled then (false, w2)
    else
      let (hovered, w3) := hover browser tag w2 in
      if negb hovered then (false, w3)
      else waitForTimeout browser 300 w3.

(** The loop of [verifyTaskTags] over the expected tags still to check:
    [missing.push(tag)] in the [catch] clause. *)
Fixpoint highlightLoop {World : Type} (browser : Browser World) (tags : list string)
    (missing : list string) (w : World) : list string * World :=
  match tags with
  | [] => (missing, w)
  | tag :: rest =>
      let (shown, w') := highlightTag browser tag w in
      highlightLoop browser rest
        (if shown then missing else (missing ++ [tag])%list) w'
  end.

(** [Array.prototype.join] on an array of strings. *)
Definition join (separator : string) (items : list string) : string :=
  String.concat separator items.

(** [DashboardPage.verifyTaskTags(taskName, expectedTags)], the state of the
    browser being passed along. *)
Definition verifyTaskTags {World : Type} (browser : Browser World)
    (taskName : string) (expectedTags : list string) (w : World)
    : TagsResult.t * World :=
  let (missing, w') := highlightLoop browser expectedTags [] w in
  let success := (List.length missing =? 0)%nat in
  ({| TagsResult.success := success;
      TagsResult.actual := expectedTags;
      TagsResult.expected := expectedTags;
      TagsResult.missing := missing;
      TagsResult.message :=
        if success
        then "Task '" ++ taskName ++ "' has all expected tags: ["
             ++ join ", " expectedTags ++ "]"
        else "Task '" ++ taskName ++ "' is missing tags: ["
             ++ join ", " missing ++ "]" |}, w').

(** A browser for examples: the tags of [visible] become visible, the other
    actions always resolve; the state counts the actions made. *)
Definition browserShowing (visible : list string) : Browser nat :=
  {| waitForVisible := fun tag n => (existsb (String.eqb tag) visible, S n);
     scrollIntoViewIfNeeded := fun _ n => (true, S n);
     hover := fun _ n => (true, S n);
     waitForTimeout := fun _ n => (true, S n) |}.

(* ================================================================== *)
(** ** Test data and its validation (utils/testHelpers) *)

Module JSON.

#[local] Set Warnings "-register-all".

Section Values.

(** JSON numbers are kept abstract: validation only asks whether a number is
    zero, and prints it. *)
Variable num : Type.
Variable numIsZero : num -> bool.
Variable numToString : num -> string.

(** A value read from the test data file. *)
Inductive value : Type :=
| Null
| Bool (b : bool)
| Number (n : num)
| Str (s : string)
| Array (items : list value)
| Object (members : list (string * value)).

(** [object[key]]: the member of that name, [None] for [undefined]. *)
Fixpoint get (members : list (string * value)) (key : string) : option value :=
  match members with
  | [] => None
  | (k, v) :: rest => if (k =? key)%string then Some v else get rest key
  end.

(** ToBoolean: [undefined], [null], [false], zero and the empty string are
    falsy; arrays and objects are truthy, empty or not. *)
Definition truthy (v : option value) : bool :=
  match v with
  | None => false
  | Some Null => false
  | Some (Bool b) => b
  | Some (Number n) => negb (numIsZero n)
  | Some (Str s) => negb (s =? "")%string
  | Some (Array _) => true
  | Some (Object _) => true
  end.

(** ToString, as a template literal applies it: an array prints its items
    separated by commas, [null] items as nothing. *)
Fixpoint toString (v : value) : string :=
  match v with
  | Null => "null"
  | Bool true => "true"
  | Bool false => "false"
  | Number n => numToString n
  | Str s => s
  | Array items =>
      String.concat ","
        (map (fun item => match item with Null => "" | _ => toString item end) items)
  | Object _ => "[object Object]"
  end.

Definition toStringOpt (v : option value) : string :=
  match v with
  | None => "undefined"
  | Some v => toString v
  end.

(** The fields [validateTestCase] requires, in the order it checks them. *)
Definition requiredFields : list string :=
  ["testId"; "description"; "project"; "taskName"; "expectedColumn"; "expectedTags"].

(** The first loop of [validateTestCase]. *)
Fixpoint checkRequired (testCase : list (string * value)) (fields : list string)
    : Outcome unit :=
  match fields with
  | [] => Returned tt
  | field :: rest =>
      if negb (truthy (get testCase field))
      then Thrown ("Test case missing required field: " ++ field)
      else checkRequired testCase rest
  end.

(** [validateTestCase(testCase)]. *)
Definition validateTestCase (testCase : list (string * value)) : Outcome unit :=
  match checkRequired testCase requiredFields with
  | Thrown error => Thrown error
  | Returned _ =>
      match get testCase "expectedTags" with
      | Some (Array items) =>
          if (List.length items =? 0)%nat
          then Thrown ("expectedTags cannot be empty for test case: "
                       ++ toStringOpt (get testCase "testId"))
          else Returned tt
      | _ => Thrown ("expectedTags must be an array for test case: "
                     ++ toStringOpt (get testCase "testId"))
      end
  end.

End Values.

Arguments Null {num}.
Arguments Bool {num} b.
Arguments Number {num} n.
Arguments Str {num} s.
Arguments Array {num} items.
Arguments Object {num} members.
Arguments get {num} members key.
Arguments checkRequired {num} numIsZero testCase fields.
Arguments validateTestCase {num} numIsZero numToString testCase.

End JSON.

(** Test data without numbers, for examples. *)
Definition noNumberIsZero (n : Empty_set) : bool := match n with end.

Definition noNumberToString (n : Empty_set) : string := match n with end.

(* ================================================================== *)
(** ** Strings: prefixes, suffixes, occurrences *)

Section StringFacts.

Local Open Scope nat_scope.

Lemma length_app (s1 s2 : string) :
  String.length (s1 ++ s2) = String.length s1 + String.length s2.
Proof.
  induction s1 as [|a s1 IH]; simpl; [reflexivity | now rewrite IH].
Qed.

Lemma prefix_iff (p s : string) :
  prefix p s = true <-> exists post, s = p ++ post.
Proof.
  revert s; induction p as [|a p IH]; intros s.
  - split; [intros _; now exists s | intros _; now destruct s].
  - destruct s as [|b s]; simpl.
    + split; [discriminate | intros [post H]; discriminate].
    + destruct (Ascii.ascii_dec a b) as [->|Hab].
      * rewrite IH. split; intros [post H]; exists post.
        -- now rewrite H.
        -- now injection H.
      * split; [discriminate | intros [post H]; injection H; congruence].
Qed.

Lemma drop_app_length (pre s : string) : drop (String.length pre) (pre ++ s) = s.
Proof. induction pre as [|a pre IH]; simpl; auto. Qed.

Lemma drop_drop (n j : nat) (s : string) : drop j (drop n s) = drop (n + j) s.
Proof.
  revert s; induction n as [|n IH]; intros s; simpl; [reflexivity|].
  destruct s as [|a s]; [now destruct j | apply IH].
Qed.

Lemma length_drop (n : nat) (s : string) :
  String.length (drop n s) = String.length s - n.
Proof.
  revert s; induction n as [|n IH]; intros s; simpl; [lia|].
  destruct s as [|a s]; simpl; [reflexivity | apply IH].
Qed.

Lemma split_at (n : nat) (s : string) :
  n <= String.length s ->
  exists pre, s = pre ++ drop n s /\ String.length pre = n.
Proof.
  revert s; induction n as [|n IH]; intros s Hn.
  - now exists "".
  - destruct s as [|a s]; simpl in Hn; [lia|].
    destruct (IH s) as [pre [E L]]; [lia|].
    exists (String a pre); simpl. split; [now rewrite <- E | now rewrite L].
Qed.

Lemma occurs_at_nat (pat text : string) (n : nat) :
  occurs_at pat text (Z.of_nat n) <->
  n <= String.length text /\ prefix pat (drop n text) = true.
Proof.
  split.
  - intros [pre [post [E L]]]. apply Nat2Z.inj in L. subst n text. split.
    + rewrite length_app. lia.
    + rewrite drop_app_length. apply prefix_iff. now exists post.
  - intros [Hn Hp]. apply prefix_iff in Hp as [post Hpost].
    destruct (split_at n text Hn) as [pre [E L]].
    exists pre, post. rewrite <- Hpost. split; [exact E | now rewrite L].
Qed.

Lemma occurs_at_bounds (pat text : string) (i : Z) :
  occurs_at pat text i ->
  (0 <= i /\ i + Z.of_nat (String.length pat) <= Z.of_nat (String.length text))%Z.
Proof.
  intros [pre [post [E L]]]. subst text i. rewrite !length_app. lia.
Qed.

Lemma search_spec (pat s : string) (k : nat) :
  match search pat s k with
  | Some r => exists i, r = k + i /\ i <= String.length s /\
                        prefix pat (drop i s) = true /\
                        forall j, j < i -> prefix pat (drop j s) = false
  | None => forall j, j <= String.length s -> prefix pat (drop j s) = false
  end.
Proof.
  revert k; induction s as [|a s IH]; intros k.
  - unfold search. destruct (prefix pat "") eqn:Hp.
    + exists 0. repeat split; [lia | lia | exact Hp | intros j Hj; lia].
    + intros j _. now destruct j.
  - cbn [search]. destruct (prefix pat (String a s)) eqn:Hp.
    + exists 0. repeat split; [lia | lia | exact Hp | intros j Hj; lia].
    + specialize (IH (S k)). destruct (search pat s (S k)) as [r|].
      * destruct IH as [i [Hr [Hi [Hm Hlt]]]]. exists (S i).
        repeat split; [lia | simpl; lia | exact Hm |].
        intros [|j] Hj; [exact Hp | apply Hlt; lia].
      * intros [|j] Hj; [exact Hp | apply IH; simpl in Hj; lia].
Qed.

End StringFacts.

(* ================================================================== *)
(** ** What [indexOf] answers *)

Section IndexOf.

Variables (text pat : string) (from : Z).

(** A match: the answer is an occurrence, none lies between the requested
    position and it, and it is not before that position (clamped to the
    length of the text). *)
Lemma indexOf_found (i : Z) :
  indexOf text pat from = i -> i <> -1 ->
  occurs_at pat text i /\ Z.min from (Z.of_nat (String.length text)) <= i /\
  forall j, from <= j < i -> ~ occurs_at pat text j.
Proof.
  unfold indexOf.
  set (start := Z.to_nat (Z.min (Z.max from 0) (Z.of_nat (String.length text)))).
  assert (Hstart : (start <= String.length text)%nat) by (subst start; lia).
  pose proof (search_spec pat (drop start text) start) as Hs.
  destruct (search pat (drop start text) start) as [r|]; [|intros <- H; now elim H].
  destruct Hs as [k [Hr [Hk [Hm Hlt]]]]. intros <- _.
  rewrite length_drop in Hk. rewrite drop_drop in Hm.
  split; [|split].
  - apply occurs_at_nat. subst r. split; [lia | exact Hm].
  - subst r start. lia.
  - intros j Hj Hocc. pose proof (occurs_at_bounds _ _ _ Hocc) as [Hj0 _].
    assert (Hjr : (start <= Z.to_nat j < r)%nat) by (subst start; lia).
    rewrite <- (Z2Nat.id j Hj0) in Hocc. apply occurs_at_nat in Hocc as [_ Hp].
    specialize (Hlt (Z.to_nat j - start)%nat ltac:(lia)).
    rewrite drop_drop in Hlt.
    replace (start + (Z.to_nat j - start))%nat with (Z.to_nat j) in Hlt by lia.
    congruence.
Qed.

(** No match: the pattern occurs nowhere at or after the requested position. *)
Lemma indexOf_missing :
  indexOf text pat from = -1 ->
  forall j, from <= j -> ~ occurs_at pat text j.
Proof.
  unfold indexOf.
  set (start := Z.to_nat (Z.min (Z.max from 0) (Z.of_nat (String.length text)))).
  pose proof (search_spec pat (drop start text) start) as Hs.
  destruct (search pat (drop start text) start) as [r|]; [lia|].
  intros _ j Hj Hocc. pose proof (occurs_at_bounds _ _ _ Hocc) as [Hj0 Hjl].
  rewrite <- (Z2Nat.id j Hj0) in Hocc. apply occurs_at_nat in Hocc as [Hle Hp].
  assert (Hsj : (start <= Z.to_nat j)%nat) by (subst start; lia).
  specialize (Hs (Z.to_nat j - start)%nat).
  rewrite length_drop, drop_drop in Hs.
  replace (start + (Z.to_nat j - start))%nat with (Z.to_nat j) in Hs by lia.
  rewrite Hs in Hp; [discriminate | lia].
Qed.

(** The answer is [-1] or an index of the text. *)
Lemma indexOf_range :
  indexOf text pat from = -1 \/
  0 <= indexOf text pat from <= Z.of_nat (String.length text).
Proof.
  destruct (Z.eq_dec (indexOf text pat from) (-1)) as [E|N]; [now left | right].
  destruct (indexOf_found _ eq_refl N) as [Hocc _].
  apply occurs_at_bounds in Hocc. lia.
Qed.

(** [indexOf] finds the first occurrence at or after [from] when there is one. *)
Lemma indexOf_first (i : Z) :
  0 <= from -> first_from pat text from i -> indexOf text pat from = i.
Proof.
  intros H0 [Hfi [Hocc Hbefore]].
  destruct (Z.eq_dec (indexOf text pat from) (-1)) as [E|N].
  - exfalso. exact (indexOf_missing E i Hfi Hocc).
  - destruct (indexOf_found _ eq_refl N) as [Hocc' [Hmin Hbefore']].
    pose proof (occurs_at_bounds _ _ _ Hocc) as [_ Hil].
    set (r := indexOf text pat from) in *.
    destruct (Z.lt_trichotomy r i) as [Hlt | [Heq | Hgt]]; [|exact Heq|].
    + exfalso. apply (Hbefore r); [lia | exact Hocc'].
    + exfalso. apply (Hbefore' i); [lia | exact Hocc].
Qed.

End IndexOf.

(** [indexOf] on small inputs: the search position, positions out of range,
    the empty pattern. *)
Example indexOf_examples :
  indexOf "abcabc" "bc" 0 = 1 /\ indexOf "abcabc" "bc" 2 = 4 /\
  indexOf "abcabc" "bc" 5 = -1 /\ indexOf "abcabc" "bc" (-7) = 1 /\
  indexOf "abc" "" 1 = 1 /\ indexOf "abc" "" 10 = 3 /\ indexOf "abc" "abcd" 0 = -1.
Proof. repeat split. Qed.

(** A found index, read as a first occurrence (the position being an index
    of the text). *)
Lemma indexOf_first_from (text pat : string) (from i : Z) :
  from <= Z.of_nat (String.length text) ->
  indexOf text pat from = i -> i <> -1 -> first_from pat text from i.
Proof.
  intros Hle E N. destruct (indexOf_found text pat from i E N) as [Hocc [Hmin Hb]].
  repeat split; [lia | exact Hocc | exact Hb].
Qed.

(* ================================================================== *)
(** ** The inner loop: the end of a column's section *)

Lemma marker_length (c : string) :
  Z.of_nat (String.length (marker c)) = Z.of_nat (String.length c) + 2.
Proof. unfold marker. rewrite length_app. simpl. lia. Qed.

(** A marker that occurs after [s] is found by the search from [s + 1], at
    an index after [s], before the end of the text and not after the
    occurrence. *)
Lemma marker_after_found (text c : string) (s j : Z) :
  0 <= s -> s < j -> occurs_at (marker c) text j ->
  let n := indexOf text (marker c) (s + 1) in
  s < n <= j /\ n < Z.of_nat (String.length text) /\ occurs_at (marker c) text n.
Proof.
  intros Hs Hj Hocc n.
  pose proof (occurs_at_bounds _ _ _ Hocc) as [_ Hjl].
  pose proof (marker_length c) as Hm.
  destruct (Z.eq_dec n (-1)) as [E|N].
  - exfalso. apply (indexOf_missing text (marker c) (s + 1) E j); [lia | exact Hocc].
  - destruct (indexOf_found text (marker c) (s + 1) n eq_refl N) as [On [Hmin Hb]].
    pose proof (occurs_at_bounds _ _ _ On) as [_ Hnl].
    repeat split; try lia; [|exact On].
    destruct (Z_lt_le_dec j n) as [Hlt|Hle]; [|exact Hle].
    exfalso. apply (Hb j); [lia | exact Hocc].
Qed.

(** The fold of [nextColumnStep] computes a minimum: of the initial bound
    and of the indices found after [s] for the other columns. *)
Lemma fold_nextColumnStep (text c : string) (s : Z) (cols : list string) (acc : Z) :
  let r := fold_left (nextColumnStep text c s) cols acc in
  r <= acc /\
  (r = acc \/ exists c', In c' cols /\ c' <> c /\
                         r = indexOf text (marker c') (s + 1) /\ s < r) /\
  (forall c', In c' cols -> c' <> c ->
              s < indexOf text (marker c') (s + 1) ->
              r <= indexOf text (marker c') (s + 1)).
Proof.
  revert acc; induction cols as [|d cols IH]; intros acc; cbn [fold_left].
  - repeat split; [lia | now left | intros c' []].
  - set (acc' := nextColumnStep text c s acc d).
    destruct (IH acc') as [Hle [Hor Hmin]].
    set (r := fold_left (nextColumnStep text c s) cols acc') in *.
    assert (Hacc' : acc' <= acc /\
              (acc' = acc \/ d <> c /\ acc' = indexOf text (marker d) (s + 1) /\ s < acc') /\
              (d <> c -> s < indexOf text (marker d) (s + 1) ->
               acc' <= indexOf text (marker d) (s + 1))).
    { subst acc'. unfold nextColumnStep. fold (marker d).
      destruct (String.eqb_spec d c) as [->|Hd].
      - repeat split; [lia | now left | intros H; now elim H].
      - set (n := indexOf text (marker d) (s + 1)).
        destruct (n >? s) eqn:G; destruct (n <? acc) eqn:L; cbn [andb];
          repeat split; try lia; try (now left); try (right; repeat split; auto; lia). }
    destruct Hacc' as [Ha [Hb Hc]].
    split; [lia | split].
    + destruct Hor as [E | [c' [Hin [Hne [E Hs]]]]].
      * destruct Hb as [E' | [Hd [E' Hs]]]; [left; lia |].
        right. exists d. repeat split; [now left | exact Hd | lia | lia].
      * right. exists c'. repeat split; [now right | exact Hne | exact E | exact Hs].
    + intros c' [<- | Hin] Hne Hs; [specialize (Hc Hne Hs); lia | now apply Hmin].
Qed.

(** The inner loop of [getTaskColumn] computes the end of the span. *)
Lemma findNextColumnIndex_span_end (this : DashboardPage) (text c : string) (s : Z) :
  0 <= s ->
  span_end (COLUMNS this) text c s (findNextColumnIndex this text c s).
Proof.
  intros Hs. unfold findNextColumnIndex.
  destruct (fold_nextColumnStep text c s (COLUMNS this)
              (Z.of_nat (String.length text))) as [Hle [Hor Hmin]].
  set (e := fold_left (nextColumnStep text c s) (COLUMNS this)
                      (Z.of_nat (String.length text))) in *.
  assert (Hnone : forall j, s < j < e -> ~ other_marker_at (COLUMNS this) text c j).
  { intros j Hj [c' [Hin [Hne Hocc]]].
    destruct (marker_after_found text c' s j Hs (proj1 Hj) Hocc) as [Hn _].
    specialize (Hmin c' Hin Hne (proj1 Hn)). lia. }
  destruct Hor as [E | [c' [Hin [Hne [E Hse]]]]].
  - right. split; [exact E|].
    intros j Hj [c' [Hin [Hne Hocc]]].
    destruct (marker_after_found text c' s j Hs Hj Hocc) as [Hn [Hlen _]].
    specialize (Hmin c' Hin Hne (proj1 Hn)). lia.
  - left. split; [exact Hse | split; [|exact Hnone]].
    exists c'. repeat split; [exact Hin | exact Hne |].
    assert (N : indexOf text (marker c') (s + 1) <> -1) by lia.
    rewrite E. exact (proj1 (indexOf_found text (marker c') (s + 1) _ eq_refl N)).
Qed.

(** The end of a span is determined by the text, the columns and the start. *)
Lemma span_end_unique (cols : list string) (text c : string) (s e1 e2 : Z) :
  span_end cols text c s e1 -> span_end cols text c s e2 -> e1 = e2.
Proof.
  intros [[H1 [O1 B1]] | [E1 A1]] [[H2 [O2 B2]] | [E2 A2]].
  - destruct (Z.lt_trichotomy e1 e2) as [H | [H | H]]; [|exact H|].
    + exfalso. apply (B2 e1); [lia | exact O1].
    + exfalso. apply (B1 e2); [lia | exact O2].
  - exfalso. apply (A2 e1 H1 O1).
  - exfalso. apply (A1 e2 H2 O2).
  - congruence.
Qed.

(* ================================================================== *)
(** ** The outer loop: which column claims the task *)

Section ColumnLoop.

Variables (this : DashboardPage) (text task : string).

(** The test of the loop body is the specification's [claims_task]. *)
Lemma column_test_claims (c : string) :
  let s := indexOf text (marker c) 0 in
  let e := findNextColumnIndex this text c s in
  let ti := indexOf text task s in
  s <> -1 -> (ti >? s) && (ti <? e) = true ->
  claims_task (COLUMNS this) text task c.
Proof.
  intros s e ti Hs Ht. apply andb_prop in Ht as [G L].
  apply Z.gtb_lt in G. apply Z.ltb_lt in L.
  destruct (indexOf_range text (marker c) 0) as [E | R]; [now elim Hs | fold s in R].
  exists s, e, ti. repeat split; try lia.
  - exact (proj1 (indexOf_found text (marker c) 0 s eq_refl Hs)).
  - exact (proj2 (proj2 (indexOf_found text (marker c) 0 s eq_refl Hs))).
  - apply findNextColumnIndex_span_end. lia.
  - apply (indexOf_found text task s ti eq_refl). lia.
  - apply (indexOf_found text task s ti eq_refl). lia.
Qed.

Lemma claims_column_test (c : string) :
  claims_task (COLUMNS this) text task c ->
  let s := indexOf text (marker c) 0 in
  let e := findNextColumnIndex this text c s in
  let ti := indexOf text task s in
  s <> -1 /\ (ti >? s) && (ti <? e) = true.
Proof.
  intros [s' [e' [ti' [Hs [He [Ht Hlt]]]]]] s e ti.
  assert (Es : s = s') by (apply indexOf_first; [lia | exact Hs]).
  pose proof (occurs_at_bounds _ _ _ (proj1 (proj2 Hs))) as [Hs0 _].
  assert (Ee : e = e').
  { apply (span_end_unique (COLUMNS this) text c s'); [|exact He].
    subst e. rewrite Es. apply findNextColumnIndex_span_end. exact Hs0. }
  assert (Et : ti = ti') by (subst ti; rewrite Es; apply indexOf_first; [lia | exact Ht]).
  split; [lia|]. apply andb_true_intro. split; [apply Z.gtb_lt | apply Z.ltb_lt]; lia.
Qed.

(** A column that claims the task ends the loop. *)
Lemma columnLoop_claim (c : string) (rest : list string) :
  claims_task (COLUMNS this) text task c ->
  columnLoop this text task (c :: rest) = Return c.
Proof.
  intros H. destruct (claims_column_test c H) as [Hs Ht].
  cbn [columnLoop]. fold (marker c).
  destruct (Z.eqb_spec (indexOf text (marker c) 0) (-1)) as [E|_]; [now elim Hs|].
  now rewrite Ht.
Qed.

(** A column that does not claim the task is passed over. *)
Lemma columnLoop_skip (c : string) (rest : list string) :
  ~ claims_task (COLUMNS this) text task c ->
  columnLoop this text task (c :: rest) = columnLoop this text task rest.
Proof.
  intros H. cbn [columnLoop]. fold (marker c).
  destruct (Z.eqb_spec (indexOf text (marker c) 0) (-1)) as [E|N]; [reflexivity|].
  destruct ((indexOf text task (indexOf text (marker c) 0) >? indexOf text (marker c) 0) &&
            (indexOf text task (indexOf text (marker c) 0) <?
             findNextColumnIndex this text c (indexOf text (marker c) 0))) eqn:Ht;
    [|reflexivity].
  elim H. exact (column_test_claims c N Ht).
Qed.

(** The loop returns the first column, in the order visited, that claims
    the task. *)
Lemma columnLoop_first_claim (pre : list string) (c : string) (post : list string) :
  (forall c', In c' pre -> ~ claims_task (COLUMNS this) text task c') ->
  claims_task (COLUMNS this) text task c ->
  columnLoop this text task (pre ++ c :: post)%list = Return c.
Proof.
  induction pre as [|d pre IH]; intros Hpre Hc.
  - now apply columnLoop_claim.
  - cbn [app]. rewrite columnLoop_skip; [|apply Hpre; now left].
    apply IH; [|exact Hc]. intros c' Hin. apply Hpre. now right.
Qed.

(** The loop throws when no column claims the task. *)
Lemma columnLoop_none (l : list string) :
  (forall c', In c' l -> ~ claims_task (COLUMNS this) text task c') ->
  columnLoop this text task l = Throw (notFoundMessage task).
Proof.
  induction l as [|d l IH]; intros Hl; [reflexivity|].
  rewrite columnLoop_skip; [|apply Hl; now left].
  apply IH. intros c' Hin. apply Hl. now right.
Qed.

(** The loop returns [c] when [c] is visited and is the only column that
    claims the task. *)
Lemma columnLoop_sole_claim (c : string) (l : list string) :
  In c l -> claims_task (COLUMNS this) text task c ->
  (forall c', In c' l -> c' <> c -> ~ claims_task (COLUMNS this) text task c') ->
  columnLoop this text task l = Return c.
Proof.
  induction l as [|d l IH]; intros Hin Hc Hothers; [contradiction|].
  destruct (string_dec d c) as [->|Hd]; [now apply columnLoop_claim|].
  rewrite columnLoop_skip; [|apply Hothers; [now left | exact Hd]].
  destruct Hin as [E | Hin]; [contradiction|].
  apply IH; [exact Hin | exact Hc |]. intros c' H' Hne. apply Hothers; [now right | exact Hne].
Qed.

End ColumnLoop.

(* ================================================================== *)
(** ** Reading concrete searches *)

Lemma indexOf_absent (text pat : string) :
  indexOf text pat 0 = -1 -> forall i, ~ occurs_at pat text i.
Proof.
  intros E i Hocc. pose proof (occurs_at_bounds _ _ _ Hocc) as [H0 _].
  exact (indexOf_missing text pat 0 E i H0 Hocc).
Qed.

Lemma indexOf_sole (text pat : string) (i : Z) :
  indexOf text pat 0 = i -> i <> -1 -> indexOf text pat (i + 1) = -1 ->
  sole_occurrence pat text i.
Proof.
  intros E N A. destruct (indexOf_found text pat 0 i E N) as [Hocc [_ Hb]].
  split; [exact Hocc|]. intros q Hq.
  pose proof (occurs_at_bounds _ _ _ Hq) as [Hq0 _].
  destruct (Z.lt_trichotomy q i) as [H | [H | H]]; [|exact H|].
  - exfalso. apply (Hb q); [lia | exact Hq].
  - exfalso. apply (indexOf_missing text pat (i + 1) A q); [lia | exact Hq].
Qed.

Lemma indexOf_span_start (text c : string) (s : Z) :
  indexOf text (marker c) 0 = s -> s <> -1 -> span_start text c s.
Proof.
  intros E N. apply indexOf_first_from; [lia | exact E | exact N].
Qed.

Lemma no_marker_no_start (text c : string) (s : Z) :
  indexOf text (marker c) 0 = -1 -> ~ span_start text c s.
Proof.
  intros E [_ [Hocc _]]. exact (indexOf_absent text (marker c) E s Hocc).
Qed.

(** A column whose loop test fails does not claim the task. *)
Lemma failed_test_no_claim (this : DashboardPage) (text task c : string) :
  (let s := indexOf text (marker c) 0 in
   (s =? -1) ||
   negb ((indexOf text task s >? s) &&
         (indexOf text task s <? findNextColumnIndex this text c s))) = true ->
  ~ claims_task (COLUMNS this) text task c.
Proof.
  cbv zeta. intros Ht H. destruct (claims_column_test this text task c H) as [Hs Hc].
  rewrite Hc in Ht. destruct (Z.eqb_spec (indexOf text (marker c) 0) (-1)); [lia|].
  discriminate Ht.
Qed.

(** The markers of two different columns of the board never sit at the same
    index: their first code units differ. *)
Lemma board_markers_apart (p : Page) (text c c' : string) (j : Z) :
  In c (COLUMNS (newDashboardPage p)) -> In c' (COLUMNS (newDashboardPage p)) ->
  c <> c' ->
  occurs_at (marker c) text j -> occurs_at (marker c') text j -> False.
Proof.
  intros Hc Hc' Hne O O'.
  pose proof (occurs_at_bounds _ _ _ O) as [Hj _].
  rewrite <- (Z2Nat.id j Hj) in O, O'.
  apply occurs_at_nat in O as [_ P]. apply occurs_at_nat in O' as [_ P'].
  destruct (drop (Z.to_nat j) text) as [|a r].
  - cbn in Hc. destruct Hc as [<- | [<- | [<- | [<- | []]]]]; discriminate P.
  - cbn in Hc, Hc'.
    destruct Hc as [<- | [<- | [<- | [<- | []]]]];
      destruct Hc' as [<- | [<- | [<- | [<- | []]]]];
      try (now elim Hne);
      cbn [marker append prefix] in P, P';
      match type of P with
      | (if ascii_dec ?x a then _ else _) = true =>
          destruct (ascii_dec x a) as [<-|]; [|discriminate P]
      end;
      discriminate P'.
Qed.

(* ================================================================== *)
(** ** Column lookup *)

(** C1, as the code has it: for every board text and task name such that the
    task name occurs exactly once in the text, at an index that lies in the
    span of a column of the board after the first code unit of that column's
    marker, [getTaskColumn] returns that column. *)
Theorem sole_task_inside_span_located (p : Page) (t c : string) (i : Z) :
  let this := newDashboardPage p in
  sole_occurrence t (boardText this) i ->
  In c (COLUMNS this) ->
  inside_span (COLUMNS this) (boardText this) c i ->
  getTaskColumn this t = Return c.
Proof.
  intros this [Hocc Hsole] Hin [s [e [Hs [He Hlt]]]].
  unfold getTaskColumn. fold (boardText this).
  apply columnLoop_sole_claim with (c := c); [exact Hin | |].
  - exists s, e, i. repeat split; try lia; try exact He; try apply Hs.
    + exact Hocc.
    + intros j Hj Oj. specialize (Hsole j Oj). lia.
  - intros c' Hin' Hne [s' [e' [ti' [Hs' [He' [Ht' Hlt']]]]]].
    assert (Eti : ti' = i) by (apply Hsole; apply Ht'). subst ti'.
    assert (Oc : occurs_at (marker c) (boardText this) s) by apply Hs.
    assert (Oc' : occurs_at (marker c') (boardText this) s') by apply Hs'.
    assert (Hno : forall cols a x y z, span_end cols (boardText this) a x y ->
              x < z < y -> ~ other_marker_at cols (boardText this) a z).
    { intros cols a x y z [[_ [_ B]] | [_ B]] Hz; apply B; lia. }
    destruct (Z.lt_trichotomy s s') as [H | [H | H]].
    + apply (Hno _ _ _ _ s' He); [lia|]. exists c'. auto.
    + subst s'. exact (board_markers_apart p _ c c' s Hin Hin' (not_eq_sym Hne) Oc Oc').
    + apply (Hno _ _ _ _ s He'); [lia|]. exists c. auto.
Qed.

(** C1, the specification's wording refuted: on the board
    ["To Do (1) Fix bug"] the text ["To Do"] occurs exactly once, at index 0,
    inside the half-open span of the column "To Do" and of no other column,
    yet [getTaskColumn] throws. *)
Lemma sole_task_at_span_start_not_located :
  let this := newDashboardPage (textPage "To Do (1) Fix bug") in
  sole_occurrence "To Do" (boardText this) 0 /\
  In "To Do" (COLUMNS this) /\
  in_span (COLUMNS this) (boardText this) "To Do" 0 /\
  (forall c', In c' (COLUMNS this) -> in_span (COLUMNS this) (boardText this) c' 0 ->
              c' = "To Do") /\
  getTaskColumn this "To Do" = Throw "Could not determine column for task: To Do".
Proof.
  cbv zeta. split; [|split; [|split; [|split]]].
  - apply indexOf_sole; [reflexivity | discriminate | reflexivity].
  - now left.
  - exists 0, 17. split; [|split; [|lia]].
    + apply indexOf_span_start; [reflexivity | discriminate].
    + exact (findNextColumnIndex_span_end
               (newDashboardPage (textPage "To Do (1) Fix bug"))
               "To Do (1) Fix bug" "To Do" 0 (Z.le_refl 0)).
  - intros c' Hin [s [e [Hs _]]].
    cbn in Hin. destruct Hin as [<- | [<- | [<- | [<- | []]]]]; [reflexivity | | |];
      exfalso; revert Hs; apply no_marker_no_start; reflexivity.
  - reflexivity.
Qed.

(** C1, the theorem at work on the scenario board: "Fix bug" occurs once, at
    index 25, inside the span of "To Do" (indices 0 to 33). *)
Lemma sole_task_inside_span_located_witness :
  getTaskColumn scenarioBoard "Fix bug" = Return "To Do".
Proof.
  apply (sole_task_inside_span_located (textPage scenarioText) "Fix bug" "To Do" 25).
  - apply indexOf_sole; [reflexivity | discriminate | reflexivity].
  - now left.
  - exists 0, 33. split; [|split; [|lia]].
    + apply indexOf_span_start; [reflexivity | discriminate].
    + exact (findNextColumnIndex_span_end scenarioBoard scenarioText "To Do" 0
               (Z.le_refl 0)).
Defined.

(** C2: the concrete scenario.  On the scenario board, whose text has no
    "Review" header, "Fix bug" is located in "To Do", "Design updates" in
    "In Progress", and the lookup of "Missing task" throws an error whose
    message names "Missing task". *)
Theorem scenario_lookups :
  COLUMNS scenarioBoard = ["To Do"; "In Progress"; "Review"; "Done"] /\
  boardText scenarioBoard =
    "To Do (2) Implement auth Fix bug In Progress (1) Design updates Done (0)" /\
  indexOf (boardText scenarioBoard) (marker "Review") 0 = -1 /\
  getTaskColumn scenarioBoard "Fix bug" = Return "To Do" /\
  getTaskColumn scenarioBoard "Design updates" = Return "In Progress" /\
  getTaskColumn scenarioBoard "Missing task" =
    Throw "Could not determine column for task: Missing task".
Proof. repeat split. Qed.

(** C3, as the code has it: for every board text, column list and task
    name, the first column in the fixed order that claims the task is the
    one returned, a column claiming the task when the first occurrence of the
    task name at or after the column's marker lies after the first code unit
    of the marker and before the end of the span (anywhere before it, also
    right against the next column's marker). *)
Theorem first_claiming_column_returned
    (this : DashboardPage) (task : string) (pre : list string) (c : string)
    (post : list string) :
  COLUMNS this = (pre ++ c :: post)%list ->
  (forall c', In c' pre -> ~ claims_task (COLUMNS this) (boardText this) task c') ->
  claims_task (COLUMNS this) (boardText this) task c ->
  getTaskColumn this task = Return c.
Proof.
  intros Hcols Hpre Hc. unfold getTaskColumn. fold (boardText this).
  rewrite Hcols. apply columnLoop_first_claim; assumption.
Qed.

(** C3, the specification's wording refuted: on the board
    ["To Do (1) Fix bug"] the first occurrence of ["To Do"] at or after the
    marker of the first column lies in the half-open span, exactly at its
    start, and [getTaskColumn] attributes it to no column. *)
Lemma task_at_span_start_not_attributed :
  let this := newDashboardPage (textPage "To Do (1) Fix bug") in
  COLUMNS this = ([] ++ "To Do" :: ["In Progress"; "Review"; "Done"])%list /\
  (forall c', In c' [] -> ~ claims_task_closed (COLUMNS this) (boardText this) "To Do" c') /\
  claims_task_closed (COLUMNS this) (boardText this) "To Do" "To Do" /\
  getTaskColumn this "To Do" = Throw "Could not determine column for task: To Do".
Proof.
  cbv zeta. split; [reflexivity | split; [intros c' [] | split; [|reflexivity]]].
  exists 0, 17, 0. split; [|split; [|split; [|lia]]].
  - apply indexOf_span_start; [reflexivity | discriminate].
  - exact (findNextColumnIndex_span_end
             (newDashboardPage (textPage "To Do (1) Fix bug"))
             "To Do (1) Fix bug" "To Do" 0 (Z.le_refl 0)).
  - apply indexOf_first_from; [cbn; lia | reflexivity | discriminate].
Qed.

(** C3, the theorem at work: "Fix bug" sits right against the "Done" header
    (indices 37 and 44), in the span of "In Progress" (from 21), and "To Do",
    earlier in the fixed order, does not claim it. *)
Lemma first_claiming_column_returned_witness :
  getTaskColumn
    (newDashboardPage (textPage "To Do (1) Write docs In Progress (1) Fix bugDone (0)"))
    "Fix bug" = Return "In Progress".
Proof.
  apply (first_claiming_column_returned
           (newDashboardPage
              (textPage "To Do (1) Write docs In Progress (1) Fix bugDone (0)"))
           "Fix bug" ["To Do"] "In Progress" ["Review"; "Done"]).
  - reflexivity.
  - intros c' [<- | []]. apply failed_test_no_claim. reflexivity.
  - exists 21, 44, 37. split; [|split; [|split; [|lia]]].
    + apply indexOf_span_start; [reflexivity | discriminate].
    + exact (findNextColumnIndex_span_end
               (newDashboardPage
                  (textPage "To Do (1) Write docs In Progress (1) Fix bugDone (0)"))
               "To Do (1) Write docs In Progress (1) Fix bugDone (0)" "In Progress" 21
               ltac:(lia)).
    + apply indexOf_first_from; [cbn; lia | reflexivity | discriminate].
Defined.

(** C4: for every board text and every column whose marker is present, the
    end boundary computed for its span is the least index after the column's
    own marker index at which the marker of any other column occurs,
    whatever that column's place in the fixed order, and the length of the
    text when no other marker follows. *)
Theorem end_boundary_nearest_other_marker
    (this : DashboardPage) (text c : string) (s : Z) :
  indexOf text (marker c) 0 = s -> s <> -1 ->
  span_end (COLUMNS this) text c s (findNextColumnIndex this text c s).
Proof.
  intros E N. apply findNextColumnIndex_span_end.
  destruct (indexOf_range text (marker c) 0) as [H | H]; lia.
Qed.

(** C4, the theorem at work: the span of "In Progress" (at index 0) ends at
    index 27, the header of "To Do", which is earlier in the fixed order;
    the "Done" header at 45 is farther. *)
Lemma end_boundary_nearest_other_marker_witness :
  let text := "In Progress (1) Write docs To Do (2) Fix bug Done (0)" in
  findNextColumnIndex (newDashboardPage (textPage text)) text "In Progress" 0 = 27 /\
  span_end ["To Do"; "In Progress"; "Review"; "Done"] text "In Progress" 0 27.
Proof.
  cbv zeta. split; [reflexivity|].
  apply (end_boundary_nearest_other_marker
           (newDashboardPage
              (textPage "In Progress (1) Write docs To Do (2) Fix bug Done (0)"))
           "In Progress (1) Write docs To Do (2) Fix bug Done (0)" "In Progress" 0).
  - reflexivity.
  - discriminate.
Defined.

(** C5: for every board text and task name that occurs nowhere in it,
    [getTaskColumn] throws, and the message of the error names the task. *)
Theorem absent_task_throws (this : DashboardPage) (t : string) :
  (forall i, ~ occurs_at t (boardText this) i) ->
  getTaskColumn this t = Throw ("Could not determine column for task: " ++ t).
Proof.
  intros Habs. unfold getTaskColumn. fold (boardText this).
  apply columnLoop_none. intros c' _ [s [e [ti [_ [_ [[_ [Hocc _]] _]]]]]].
  exact (Habs ti Hocc).
Qed.

(** C5, the theorem at work on the scenario board. *)
Lemma absent_task_throws_witness :
  getTaskColumn scenarioBoard "Missing task" =
    Throw "Could not determine column for task: Missing task".
Proof.
  apply (absent_task_throws scenarioBoard "Missing task").
  apply indexOf_absent. reflexivity.
Defined.

(* ================================================================== *)
(** ** Tag lookup *)

Section Tags.

Local Open Scope list_scope.

(** Pushing the elements that pass a test, in turn, is filtering. *)
Lemma fold_push_filter {A : Type} (f : A -> bool) (l acc : list A) :
  fold_left (fun found x => if f x then found ++ [x] else found) l acc
  = acc ++ filter f l.
Proof.
  revert acc; induction l as [|x l IH]; intros acc; cbn [fold_left filter].
  - now rewrite app_nil_r.
  - rewrite IH. destruct (f x); [now rewrite <- app_assoc | reflexivity].
Qed.

Lemma getTaskTags_filter (this : DashboardPage) (taskName : string) :
  getTaskTags this taskName
  = filter (fun tag => (0 <? getByTextExactCount (page this) tag)%nat) possibleTags.
Proof.
  unfold getTaskTags.
  exact (fold_push_filter
           (fun tag => (0 <? getByTextExactCount (page this) tag)%nat) possibleTags []).
Qed.

Lemma getTaskTags_In (this : DashboardPage) (taskName tag : string) :
  In tag (getTaskTags this taskName) <->
  In tag possibleTags /\ (0 < getByTextExactCount (page this) tag)%nat.
Proof.
  rewrite getTaskTags_filter, filter_In. now rewrite Nat.ltb_lt.
Qed.

Lemma filter_subsequence {A : Type} (f : A -> bool) (l : list A) :
  subsequence (filter f l) l.
Proof.
  induction l as [|x l IH]; cbn [filter]; [constructor|].
  destruct (f x); now constructor.
Qed.

Lemma possibleTags_NoDup : NoDup possibleTags.
Proof.
  unfold possibleTags.
  repeat (constructor; [cbn; intuition discriminate|]). constructor.
Qed.

End Tags.

Lemma append_assoc (a b c : string) : (a ++ b) ++ c = a ++ b ++ c.
Proof. induction a as [|x a IH]; cbn; [reflexivity | now rewrite IH]. Qed.

(** Text added at the end of a board keeps every occurrence in place. *)
Lemma occurs_at_append (pat text extra : string) (i : Z) :
  occurs_at pat text i -> occurs_at pat (text ++ extra) i.
Proof.
  intros [pre [post [E L]]]. exists pre, (post ++ extra). split; [|exact L].
  rewrite E. now rewrite !append_assoc.
Qed.

(** [getTaskColumn] reads [COLUMNS] and nothing else of the page object. *)
Lemma columnLoop_COLUMNS (this1 this2 : DashboardPage) (text task : string)
    (l : list string) :
  COLUMNS this1 = COLUMNS this2 ->
  columnLoop this1 text task l = columnLoop this2 text task l.
Proof.
  intros E. induction l as [|c l IH]; [reflexivity|].
  cbn [columnLoop]. unfold findNextColumnIndex. now rewrite E, IH.
Qed.

(** C6, as the code has it: [getTaskTags] has no failing path (it is a total
    function to tag lists), and a tag is in the list it returns if and only
    if it is one of the four vocabulary tags and the page's exact-text
    locator for it matches at least one element; a tag without a match is
    simply left out. *)
Theorem tag_included_iff_exact_match (this : DashboardPage) (taskName tag : string) :
  In tag (getTaskTags this taskName) <->
  In tag possibleTags /\ (0 < getByTextExactCount (page this) tag)%nat.
Proof. apply getTaskTags_In. Qed.

(** C6, the specification's wording refuted: the body text ["Bugfix"] (one
    element whose text is "Bugfix") contains the tag "Bug" verbatim, the
    exact-text locator for "Bug" matches nothing, and "Bug" is not returned. *)
Lemma verbatim_tag_not_included :
  let this := newDashboardPage (mkPage "Bugfix" (matchesOnly [])) in
  In "Bug" possibleTags /\
  occurs "Bug" (boardText this) /\
  ~ In "Bug" (getTaskTags this "Fix login").
Proof.
  cbv zeta. split; [right; now left | split].
  - exists 0. exists "", "fix". split; reflexivity.
  - cbn. tauto.
Qed.

(** C7, as the code has it: [getTaskTags] is monotonic in the exact-text
    matches of the page (when every vocabulary tag matched on one page is
    matched on another, every tag returned for the first is returned for the
    second), and its result is always within the vocabulary. *)
Theorem tags_monotonic_in_matches
    (this this' : DashboardPage) (taskName tag : string) :
  ((forall tg, In tg possibleTags ->
               (0 < getByTextExactCount (page this) tg)%nat ->
               (0 < getByTextExactCount (page this') tg)%nat) ->
   In tag (getTaskTags this taskName) -> In tag (getTaskTags this' taskName)) /\
  (In tag (getTaskTags this taskName) -> In tag possibleTags).
Proof.
  rewrite !getTaskTags_In. split.
  - intros Hmono [Hin Hc]. split; [exact Hin | now apply Hmono].
  - tauto.
Qed.

(** C7, the specification's wording refuted: the body text ["Bug"] (one
    element, matched by the exact-text locator) becomes ["BugFeature"] (one
    element, matched for neither tag): every occurrence is kept in place, a
    literal occurrence of "Feature" is added, and "Bug" leaves the result. *)
Lemma added_tag_text_removes_tag :
  let this := newDashboardPage (mkPage "Bug" (matchesOnly ["Bug"])) in
  let this' := newDashboardPage (mkPage "BugFeature" (matchesOnly [])) in
  (forall tg i, occurs_at tg (boardText this) i -> occurs_at tg (boardText this') i) /\
  ~ occurs "Feature" (boardText this) /\
  occurs "Feature" (boardText this') /\
  In "Bug" (getTaskTags this "Fix login") /\
  ~ In "Bug" (getTaskTags this' "Fix login").
Proof.
  cbv zeta. split; [|split; [|split; [|split]]].
  - intros tg i. exact (occurs_at_append tg "Bug" "Feature" i).
  - intros [i Hi]. revert Hi. apply indexOf_absent. reflexivity.
  - exists 3. exists "Bug", "". split; reflexivity.
  - cbn. tauto.
  - cbn. tauto.
Qed.

(** C7, the theorem at work: a page with a "Bug" element, then with a
    "Feature" element besides. *)
Lemma tags_monotonic_in_matches_witness :
  let this := newDashboardPage (mkPage "Bug" (matchesOnly ["Bug"])) in
  let this' := newDashboardPage (mkPage "BugFeature" (matchesOnly ["Bug"; "Feature"])) in
  (In "Bug" (getTaskTags this "Fix login") -> In "Bug" (getTaskTags this' "Fix login")) /\
  (In "Bug" (getTaskTags this "Fix login") -> In "Bug" possibleTags).
Proof.
  cbv zeta.
  destruct (tags_monotonic_in_matches
              (newDashboardPage (mkPage "Bug" (matchesOnly ["Bug"])))
              (newDashboardPage (mkPage "BugFeature" (matchesOnly ["Bug"; "Feature"])))
              "Fix login" "Bug") as [Hmono Hsub].
  split; [apply Hmono | exact Hsub].
  intros tg Hin. cbn in Hin.
  destruct Hin as [<- | [<- | [<- | [<- | []]]]]; cbn; lia.
Defined.

(** C8, as the code has it: neither method keeps or reads hidden state.
    Two calls with the same task name on page objects with the same columns
    whose pages give the same body text yield the same column or the same
    error; two calls whose pages give the same exact-text match counts for
    the vocabulary tags yield the same tag list. *)
Theorem same_page_answers_same_outputs
    (this1 this2 : DashboardPage) (taskName : string) :
  (boardText this1 = boardText this2 -> COLUMNS this1 = COLUMNS this2 ->
   getTaskColumn this1 taskName = getTaskColumn this2 taskName) /\
  ((forall tag, In tag possibleTags ->
                getByTextExactCount (page this1) tag = getByTextExactCount (page this2) tag) ->
   getTaskTags this1 taskName = getTaskTags this2 taskName).
Proof.
  split.
  - intros Htext Hcols. unfold getTaskColumn. fold (boardText this1) (boardText this2).
    rewrite Htext, Hcols. now apply columnLoop_COLUMNS.
  - intros Hcount. rewrite !getTaskTags_filter. apply filter_ext_in.
    intros tag Hin. now rewrite (Hcount tag Hin).
Qed.

(** C8, the specification's wording refuted: two pages with the one body
    text ["Bugfix"], the first made of the elements "Bug" and "fix", the
    second of the single element "Bugfix"; same task name, different tag
    lists. *)
Lemma same_text_different_tags :
  let this1 := newDashboardPage (mkPage "Bugfix" (matchesOnly ["Bug"])) in
  let this2 := newDashboardPage (mkPage "Bugfix" (matchesOnly [])) in
  boardText this1 = boardText this2 /\
  COLUMNS this1 = COLUMNS this2 /\
  getTaskColumn this1 "Fix login" = getTaskColumn this2 "Fix login" /\
  getTaskTags this1 "Fix login" = ["Bug"] /\
  getTaskTags this2 "Fix login" = [] /\
  getTaskTags this1 "Fix login" <> getTaskTags this2 "Fix login".
Proof. cbv zeta. repeat split. discriminate. Qed.

(** C8, the theorem at work: the scenario board with and without a "Bug"
    element gets the same column; two pages with different body texts and
    the same matches get the same tags. *)
Lemma same_page_answers_same_outputs_witness :
  getTaskColumn scenarioBoard "Fix bug"
    = getTaskColumn (newDashboardPage (mkPage scenarioText (matchesOnly ["Bug"]))) "Fix bug" /\
  getTaskTags (newDashboardPage (mkPage "Bugfix" (matchesOnly ["Bug"]))) "Fix bug"
    = getTaskTags (newDashboardPage (mkPage "Bug fix" (matchesOnly ["Bug"]))) "Fix bug".
Proof.
  split.
  - apply (same_page_answers_same_outputs scenarioBoard
             (newDashboardPage (mkPage scenarioText (matchesOnly ["Bug"]))) "Fix bug");
      reflexivity.
  - apply (same_page_answers_same_outputs
             (newDashboardPage (mkPage "Bugfix" (matchesOnly ["Bug"])))
             (newDashboardPage (mkPage "Bug fix" (matchesOnly ["Bug"]))) "Fix bug").
    intros tag _. reflexivity.
Defined.

(** C9: the list returned by [getTaskTags] does not depend on the task name:
    on every page, any two task names get the same tags. *)
Theorem tags_ignore_task_name (this : DashboardPage) (t1 t2 : string) :
  getTaskTags this t1 = getTaskTags this t2.
Proof. now rewrite !getTaskTags_filter. Qed.

(** C10: on every page the list returned by [getTaskTags] has no duplicate
    and is a subsequence of the vocabulary Feature, Bug, Design, High
    Priority, in that order. *)
Theorem tags_ordered_duplicate_free (this : DashboardPage) (taskName : string) :
  possibleTags = ["Feature"; "Bug"; "Design"; "High Priority"] /\
  NoDup (getTaskTags this taskName) /\
  subsequence (getTaskTags this taskName) possibleTags.
Proof.
  rewrite getTaskTags_filter. split; [reflexivity | split].
  - apply NoDup_filter, possibleTags_NoDup.
  - apply filter_subsequence.
Qed.

(* ================================================================== *)
(** ** Column lookup: what an answer means *)

Section ColumnLoopAnswers.

Variables (this : DashboardPage) (text task : string).

(** Whether a column claims the task is decided by the test of the loop. *)
Lemma claims_task_dec (c : string) :
  claims_task (COLUMNS this) text task c \/ ~ claims_task (COLUMNS this) text task c.
Proof.
  destruct ((indexOf text (marker c) 0 =? -1) ||
            negb ((indexOf text task (indexOf text (marker c) 0)
                     >? indexOf text (marker c) 0) &&
                  (indexOf text task (indexOf text (marker c) 0)
                     <? findNextColumnIndex this text c (indexOf text (marker c) 0))))
    eqn:T.
  - right. now apply failed_test_no_claim.
  - left. apply orb_false_elim in T as [Hs Ht].
    apply negb_false_iff in Ht. apply Z.eqb_neq in Hs.
    exact (column_test_claims this text task c Hs Ht).
Qed.

(** A returned column is visited, claims the task, and no column visited
    before it does. *)
Lemma columnLoop_Return_inv (l : list string) (c : string) :
  columnLoop this text task l = Return c ->
  exists pre post, l = (pre ++ c :: post)%list /\
    claims_task (COLUMNS this) text task c /\
    forall c', In c' pre -> ~ claims_task (COLUMNS this) text task c'.
Proof.
  induction l as [|d l IH]; intros H; [discriminate H|].
  destruct (claims_task_dec d) as [Hd | Hd].
  - rewrite (columnLoop_claim this text task d l Hd) in H. injection H as <-.
    exists [], l. repeat split; [exact Hd | intros c' []].
  - rewrite (columnLoop_skip this text task d l Hd) in H.
    destruct (IH H) as [pre [post [E [Hc Hpre]]]].
    exists (d :: pre), post. repeat split; [now rewrite E | exact Hc |].
    intros c' [<- | Hin]; [exact Hd | now apply Hpre].
Qed.


End ColumnLoopAnswers.

(** The empty string occurs at every index of a text, its end included. *)
Lemma occurs_at_empty (text : string) (i : Z) :
  0 <= i <= Z.of_nat (String.length text) -> occurs_at "" text i.
Proof.
  intros Hi. rewrite <- (Z2Nat.id i (proj1 Hi)). apply occurs_at_nat.
  split; [lia | now destruct (drop (Z.to_nat i) text)].
Qed.

(** X1: [getTaskColumn] returns a column exactly when that column is the
    first of [COLUMNS], in order, to claim the task: its header is in the
    text and the first occurrence of the task name at or after the header
    lies after the header's first code unit and before the end of the span. *)
Theorem getTaskColumn_returns_iff (this : DashboardPage) (task c : string) :
  getTaskColumn this task = Return c <->
  exists pre post, COLUMNS this = (pre ++ c :: post)%list /\
    claims_task (COLUMNS this) (boardText this) task c /\
    forall c', In c' pre -> ~ claims_task (COLUMNS this) (boardText this) task c'.
Proof.
  unfold getTaskColumn. fold (boardText this). split.
  - apply columnLoop_Return_inv.
  - intros [pre [post [E [Hc Hpre]]]]. rewrite E.
    now apply columnLoop_first_claim.
Qed.


(** X3: when [getTaskColumn] returns a column, the column is one of
    [COLUMNS], its header occurs in the body text, the task name occurs
    after the first code unit of that header, and the header of no other
    column starts between the two. *)
Theorem returned_column_header_precedes_task (this : DashboardPage) (task c : string) :
  getTaskColumn this task = Return c ->
  In c (COLUMNS this) /\
  exists s ti,
    span_start (boardText this) c s /\ occurs_at task (boardText this) ti /\
    s < ti /\
    forall j, s < j <= ti -> ~ other_marker_at (COLUMNS this) (boardText this) c j.
Proof.
  unfold getTaskColumn. fold (boardText this). intros H.
  apply columnLoop_Return_inv in H as [pre [post [E [Hc _]]]].
  split; [rewrite E; apply in_elt|].
  destruct Hc as [s [e [ti [Hs [He [Ht Hlt]]]]]].
  exists s, ti. repeat split; try apply Hs; try apply Ht; try lia.
  intros j Hj. destruct He as [[_ [_ B]] | [_ B]]; apply B; lia.
Qed.

(** X3 at work on the scenario board. *)
Lemma returned_column_header_precedes_task_witness :
  In "In Progress" (COLUMNS scenarioBoard) /\
  exists s ti,
    span_start (boardText scenarioBoard) "In Progress" s /\
    occurs_at "Design updates" (boardText scenarioBoard) ti /\
    s < ti /\
    forall j, s < j <= ti ->
      ~ other_marker_at (COLUMNS scenarioBoard) (boardText scenarioBoard) "In Progress" j.
Proof.
  apply (returned_column_header_precedes_task scenarioBoard "Design updates" "In Progress").
  reflexivity.
Defined.

(** X4: the empty task name is never located: [getTaskColumn] throws for it
    on every page, whatever the columns. *)
Theorem empty_task_name_throws (this : DashboardPage) :
  getTaskColumn this "" = Throw "Could not determine column for task: ".
Proof.
  unfold getTaskColumn. apply columnLoop_none.
  intros c _ [s [e [ti [Hs [_ [[_ [_ Hb]] Hlt]]]]]].
  destruct Hs as [_ [Hocc _]]. apply occurs_at_bounds in Hocc.
  apply (Hb s); [lia|]. apply occurs_at_empty. lia.
Qed.

(** X5: on a page whose body text shows the header of no column, an empty
    body among them, [getTaskColumn] throws for every task name, also for
    one that occurs in the text. *)
Theorem no_header_throws (this : DashboardPage) (task : string) :
  (forall c i, In c (COLUMNS this) -> ~ occurs_at (marker c) (boardText this) i) ->
  getTaskColumn this task = Throw ("Could not determine column for task: " ++ task).
Proof.
  intros Hnone. unfold getTaskColumn. fold (boardText this). apply columnLoop_none.
  intros c Hin [s [_ [_ [[_ [Hocc _]] _]]]]. exact (Hnone c s Hin Hocc).
Qed.

(** X5 at work: a body that lists tasks under no header. *)
Lemma no_header_throws_witness :
  getTaskColumn (newDashboardPage (textPage "Implement auth Fix bug")) "Fix bug"
  = Throw "Could not determine column for task: Fix bug".
Proof.
  apply (no_header_throws (newDashboardPage (textPage "Implement auth Fix bug")) "Fix bug").
  intros c i Hin. cbn in Hin.
  destruct Hin as [<- | [<- | [<- | [<- | []]]]]; apply indexOf_absent; reflexivity.
Defined.

(** X6: the section computed for a column whose header is present is a
    non-empty range of the text: it starts at an index of the text and its
    end is after the start and not past the end of the text. *)
Theorem section_within_text (this : DashboardPage) (text c : string) (s : Z) :
  indexOf text (marker c) 0 = s -> s <> -1 ->
  0 <= s < findNextColumnIndex this text c s /\
  findNextColumnIndex this text c s <= Z.of_nat (String.length text).
Proof.
  intros E N.
  destruct (indexOf_found text (marker c) 0 s E N) as [Hocc _].
  apply occurs_at_bounds in Hocc. pose proof (marker_length c) as Hm.
  unfold findNextColumnIndex.
  destruct (fold_nextColumnStep text c s (COLUMNS this)
              (Z.of_nat (String.length text))) as [Hle [[Hr | [c' [_ [_ [_ Hr]]]]] _]];
    lia.
Qed.

(** X6 at work on the scenario board: the section of "In Progress". *)
Lemma section_within_text_witness :
  0 <= 33 < findNextColumnIndex scenarioBoard scenarioText "In Progress" 33 /\
  findNextColumnIndex scenarioBoard scenarioText "In Progress" 33
    <= Z.of_nat (String.length scenarioText).
Proof.
  apply (section_within_text scenarioBoard scenarioText "In Progress" 33).
  - reflexivity.
  - discriminate.
Defined.

(** X16: a task name that also matches at the index of a column's header
    (a task named like the column, say) is never located in that column,
    even when it occurs again further down in the column's section: only the
    first occurrence at or after the header is looked at, and it must lie
    after the header's first code unit. *)
Theorem task_matching_header_not_located (this : DashboardPage) (task c : string) (s : Z) :
  span_start (boardText this) c s ->
  occurs_at task (boardText this) s ->
  getTaskColumn this task <> Return c.
Proof.
  intros Hs Hocc H. unfold getTaskColumn in H. fold (boardText this) in H.
  apply columnLoop_Return_inv in H as [_ [_ [_ [Hc _]]]].
  destruct Hc as [s' [e [ti [Hs' [_ [[_ [_ Hb]] Hlt]]]]]].
  assert (E : s' = s).
  { destruct Hs as [H0 [O B]], Hs' as [H0' [O' B']].
    destruct (Z.lt_trichotomy s' s) as [L | [L | L]]; [|exact L|].
    - exfalso. apply (B s'); [lia | exact O'].
    - exfalso. apply (B' s); [lia | exact O]. }
  subst s'. apply (Hb s); [lia | exact Hocc].
Qed.

(** X16 at work: a task card named "To Do" in the column "To Do". *)
Lemma task_matching_header_not_located_witness :
  getTaskColumn (newDashboardPage (textPage "To Do (2) To Do Fix bug Done (0)")) "To Do"
    = Throw "Could not determine column for task: To Do" /\
  getTaskColumn (newDashboardPage (textPage "To Do (2) To Do Fix bug Done (0)")) "To Do"
    <> Return "To Do".
Proof.
  split; [reflexivity|].
  apply (task_matching_header_not_located
           (newDashboardPage (textPage "To Do (2) To Do Fix bug Done (0)"))
           "To Do" "To Do" 0).
  - apply indexOf_span_start; [reflexivity | discriminate].
  - exists "", " (2) To Do Fix bug Done (0)". split; reflexivity.
Defined.

(* ================================================================== *)
(** ** [verifyTaskColumn] *)


(** X8: [verifyTaskColumn] reports success exactly when the expected column
    is the first column of [COLUMNS] to claim the task (the names compared
    code unit by code unit); the result then repeats the expected column as
    the actual one and its message says the task is correctly there. *)
Theorem verifyTaskColumn_success_iff
    (this : DashboardPage) (taskName expectedColumn : string) :
  (forall r, verifyTaskColumn this taskName expectedColumn = Returned r ->
             ColumnResult.success r = true ->
             r = ColumnResult.mk true expectedColumn expectedColumn
                   ("Task '" ++ taskName ++ "' is correctly in '" ++ expectedColumn
                    ++ "' column")) /\
  ((exists r, verifyTaskColumn this taskName expectedColumn = Returned r /\
              ColumnResult.success r = true) <->
   exists pre post, COLUMNS this = (pre ++ expectedColumn :: post)%list /\
     claims_task (COLUMNS this) (boardText this) taskName expectedColumn /\
     forall c', In c' pre -> ~ claims_task (COLUMNS this) (boardText this) taskName c').
Proof.
  unfold verifyTaskColumn, getTaskColumn. fold (boardText this).
  destruct (columnLoop this (boardText this) taskName (COLUMNS this)) as [c | e] eqn:H.
  - destruct (String.eqb_spec c expectedColumn) as [-> | Hne].
    + split.
      * intros r E _. now injection E as <-.
      * split; [intros _; exact (columnLoop_Return_inv _ _ _ _ _ H)|].
        intros _. eexists. split; reflexivity.
    + split.
      * intros r E Hs. injection E as <-. discriminate Hs.
      * split.
        -- intros [r [E Hs]]. injection E as <-. discriminate Hs.
        -- intros [pre [post [E [Hc Hpre]]]]. exfalso. apply Hne.
           rewrite E in H.
           rewrite (columnLoop_first_claim this _ _ pre expectedColumn post Hpre Hc) in H.
           now injection H.
  - split; [intros r E; discriminate E|].
    split; [intros [r [E _]]; discriminate E|].
    intros [pre [post [E [Hc Hpre]]]]. exfalso. rewrite E in H.
    rewrite (columnLoop_first_claim this _ _ pre expectedColumn post Hpre Hc) in H.
    discriminate H.
Qed.

(** X9: an expected column that is not one of [COLUMNS] (a misspelt name, a
    different case) is never verified: every result [verifyTaskColumn]
    returns for it has [success] false, an actual column taken from
    [COLUMNS], and the message that sets the two names against each other. *)
Theorem unknown_column_never_verified
    (this : DashboardPage) (taskName expectedColumn : string) (r : ColumnResult.t) :
  ~ In expectedColumn (COLUMNS this) ->
  verifyTaskColumn this taskName expectedColumn = Returned r ->
  ColumnResult.success r = false /\
  In (ColumnResult.actual r) (COLUMNS this) /\
  ColumnResult.expected r = expectedColumn /\
  ColumnResult.message r =
    "Task '" ++ taskName ++ "' is in '" ++ ColumnResult.actual r
    ++ "' but expected '" ++ expectedColumn ++ "'".
Proof.
  unfold verifyTaskColumn, getTaskColumn. fold (boardText this). intros Hnot.
  destruct (columnLoop this (boardText this) taskName (COLUMNS this)) as [c | e] eqn:H;
    [|discriminate].
  apply columnLoop_Return_inv in H as [pre [post [E _]]].
  assert (Hin : In c (COLUMNS this)) by (rewrite E; apply in_elt).
  intros R. injection R as <-. cbn.
  destruct (String.eqb_spec c expectedColumn) as [-> | Hne]; [contradiction|].
  repeat split. exact Hin.
Qed.

(** X9 at work: the scenario board asked for "to do" in lower case. *)
Lemma unknown_column_never_verified_witness :
  let r := ColumnResult.mk false "To Do" "to do"
             "Task 'Fix bug' is in 'To Do' but expected 'to do'" in
  ColumnResult.success r = false /\
  In (ColumnResult.actual r) (COLUMNS scenarioBoard) /\
  ColumnResult.expected r = "to do" /\
  ColumnResult.message r =
    "Task '" ++ "Fix bug" ++ "' is in '" ++ ColumnResult.actual r
    ++ "' but expected '" ++ "to do" ++ "'".
Proof.
  cbv zeta.
  apply (unknown_column_never_verified scenarioBoard "Fix bug" "to do").
  - cbn. intuition discriminate.
  - reflexivity.
Defined.

(* ================================================================== *)
(** ** [verifyTaskTags] *)

Section VerifyTaskTags.

Context {World : Type} (browser : Browser World).

Local Open Scope list_scope.

Lemma subsequence_refl {A : Type} (l : list A) : subsequence l l.
Proof. induction l; now constructor. Qed.

(** The loop adds to [missing], at its end, a subsequence of the tags it
    visits. *)
Lemma highlightLoop_missing (tags acc : list string) (w : World) :
  exists added, fst (highlightLoop browser tags acc w) = acc ++ added /\
                subsequence added tags.
Proof.
  revert acc w; induction tags as [|tag tags IH]; intros acc w; cbn [highlightLoop].
  - exists []. split; [now rewrite app_nil_r | constructor].
  - destruct (highlightTag browser tag w) as [shown w'].
    destruct shown.
    + destruct (IH acc w') as [added [E S]]. exists added. split; [exact E | now constructor].
    + destruct (IH (acc ++ [tag]) w') as [added [E S]]. exists (tag :: added).
      split; [now rewrite E, <- app_assoc | now constructor].
Qed.

(** When the [try] block runs to its end for every tag visited, nothing is
    added to [missing]. *)
Lemma highlightLoop_all_shown (tags acc : list string) (w : World) :
  (forall tag w', In tag tags -> fst (highlightTag browser tag w') = true) ->
  fst (highlightLoop browser tags acc w) = acc.
Proof.
  revert acc w; induction tags as [|tag tags IH]; intros acc w Hall; [reflexivity|].
  cbn [highlightLoop]. pose proof (Hall tag w (or_introl eq_refl)) as Ht.
  destruct (highlightTag browser tag w) as [shown w']. cbn in Ht. subst shown.
  apply IH. intros t w'' Hin. apply Hall. now right.
Qed.

(** What is in [missing] stays there, and a visited tag whose [try] block
    never runs to its end is added. *)
Lemma highlightLoop_keeps (tags acc : list string) (w : World) (x : string) :
  In x acc -> In x (fst (highlightLoop browser tags acc w)).
Proof.
  intros Hx. destruct (highlightLoop_missing tags acc w) as [added [E _]].
  rewrite E. apply in_or_app. now left.
Qed.

Lemma highlightLoop_never_shown (tags acc : list string) (w : World) (x : string) :
  In x tags -> (forall w', fst (highlightTag browser x w') = false) ->
  In x (fst (highlightLoop browser tags acc w)).
Proof.
  revert acc w; induction tags as [|tag tags IH]; intros acc w Hin Hx; [contradiction|].
  cbn [highlightLoop]. destruct (highlightTag browser tag w) as [shown w'] eqn:Ht.
  destruct Hin as [-> | Hin].
  - pose proof (Hx w) as Hf. rewrite Ht in Hf. cbn in Hf. subst shown.
    apply highlightLoop_keeps. apply in_or_app. right. now left.
  - now apply IH.
Qed.

(** The [try] block fails when the wait for visibility rejects. *)
Lemma highlightTag_not_visible (tag : string) (w : World) :
  fst (waitForVisible browser tag w) = false -> fst (highlightTag browser tag w) = false.
Proof.
  unfold highlightTag. destruct (waitForVisible browser tag w) as [v w1]. cbn.
  now intros ->.
Qed.

(** The [try] block runs to its end when its four actions resolve. *)
Lemma highlightTag_all_resolve (tag : string) (w : World) :
  (forall w', fst (waitForVisible browser tag w') = true) ->
  (forall w', fst (scrollIntoViewIfNeeded browser tag w') = true) ->
  (forall w', fst (hover browser tag w') = true) ->
  (forall w', fst (waitForTimeout browser 300 w') = true) ->
  fst (highlightTag browser tag w) = true.
Proof.
  intros Hv Hs Hh Ht. unfold highlightTag.
  pose proof (Hv w) as H1. destruct (waitForVisible browser tag w) as [v w1].
  cbn in H1. subst v. cbn [negb].
  pose proof (Hs w1) as H2. destruct (scrollIntoViewIfNeeded browser tag w1) as [sc w2].
  cbn in H2. subst sc. cbn [negb].
  pose proof (Hh w2) as H3. destruct (hover browser tag w2) as [h w3].
  cbn in H3. subst h. cbn [negb]. apply Ht.
Qed.

(** X10: whatever the browser does, the tags [verifyTaskTags] reports
    missing are a subsequence of the expected tags (same order, repeats
    kept), and its [actual] field is not read from the page: like
    [expected], it repeats the expected tags, also when some are missing. *)
Theorem verifyTaskTags_missing_within_expected
    (taskName : string) (expectedTags : list string) (w : World) :
  let r := fst (verifyTaskTags browser taskName expectedTags w) in
  subsequence (TagsResult.missing r) expectedTags /\
  TagsResult.actual r = expectedTags /\
  TagsResult.expected r = expectedTags.
Proof.
  unfold verifyTaskTags.
  destruct (highlightLoop_missing expectedTags [] w) as [added [E S]].
  destruct (highlightLoop browser expectedTags [] w) as [missing w'].
  cbn in E |- *. subst missing. repeat split. exact S.
Qed.

(** X11: when, for every expected tag, waiting for visibility, scrolling and
    hovering always resolve, and so does the pause, [verifyTaskTags] reports
    success, nothing missing, and the message listing all expected tags
    separated by ", " (an empty list of expected tags included). *)
Theorem verifyTaskTags_all_shown
    (taskName : string) (expectedTags : list string) (w : World) :
  (forall tag w', In tag expectedTags ->
     fst (waitForVisible browser tag w') = true /\
     fst (scrollIntoViewIfNeeded browser tag w') = true /\
     fst (hover browser tag w') = true) ->
  (forall w', fst (waitForTimeout browser 300 w') = true) ->
  let r := fst (verifyTaskTags browser taskName expectedTags w) in
  TagsResult.success r = true /\
  TagsResult.missing r = [] /\
  TagsResult.message r =
    ("Task '" ++ taskName ++ "' has all expected tags: ["
     ++ join ", " expectedTags ++ "]")%string.
Proof.
  intros Hall Hpause. unfold verifyTaskTags.
  assert (Hshown : forall tag w', In tag expectedTags ->
                     fst (highlightTag browser tag w') = true).
  { intros tag w' Hin. apply highlightTag_all_resolve; try exact Hpause;
      intros w''; apply (Hall tag w'' Hin). }
  pose proof (highlightLoop_all_shown expectedTags [] w Hshown) as E.
  destruct (highlightLoop browser expectedTags [] w) as [missing w'].
  cbn in E |- *. subst missing. repeat split.
Qed.

(** X12: an expected tag that never becomes visible is reported missing:
    [success] is false, the tag is in [missing], and the message lists the
    missing tags, whatever happens for the other tags. *)
Theorem verifyTaskTags_hidden_tag_missing
    (taskName : string) (expectedTags : list string) (w : World) (tag : string) :
  In tag expectedTags ->
  (forall w', fst (waitForVisible browser tag w') = false) ->
  let r := fst (verifyTaskTags browser taskName expectedTags w) in
  TagsResult.success r = false /\
  In tag (TagsResult.missing r) /\
  TagsResult.message r =
    ("Task '" ++ taskName ++ "' is missing tags: ["
     ++ join ", " (TagsResult.missing r) ++ "]")%string.
Proof.
  intros Hin Hhidden. unfold verifyTaskTags.
  pose proof (highlightLoop_never_shown expectedTags [] w tag Hin
                (fun w' => highlightTag_not_visible tag w' (Hhidden w'))) as Hm.
  destruct (highlightLoop browser expectedTags [] w) as [missing w'].
  cbn in Hm |- *. destruct missing as [|x missing]; [contradiction|].
  repeat split. exact Hm.
Qed.

End VerifyTaskTags.

(** X11 at work: both expected tags are shown. *)
Lemma verifyTaskTags_all_shown_witness :
  let r := fst (verifyTaskTags (browserShowing ["Feature"; "Bug"]) "Fix bug"
                  ["Bug"; "Feature"] O) in
  TagsResult.success r = true /\
  TagsResult.missing r = [] /\
  TagsResult.message r = "Task 'Fix bug' has all expected tags: [Bug, Feature]".
Proof.
  cbv zeta.
  apply (verifyTaskTags_all_shown (browserShowing ["Feature"; "Bug"]) "Fix bug"
           ["Bug"; "Feature"] O).
  - intros tag w' Hin. cbn in Hin. destruct Hin as [<- | [<- | []]]; repeat split.
  - intros w'. reflexivity.
Defined.

(** X12 at work: "Design" is expected and never shown. *)
Lemma verifyTaskTags_hidden_tag_missing_witness :
  let r := fst (verifyTaskTags (browserShowing ["Feature"; "Bug"]) "Fix bug"
                  ["Bug"; "Design"] O) in
  TagsResult.success r = false /\
  In "Design" (TagsResult.missing r) /\
  TagsResult.message r =
    "Task '" ++ "Fix bug" ++ "' is missing tags: ["
    ++ join ", " (TagsResult.missing r) ++ "]".
Proof.
  cbv zeta.
  apply (verifyTaskTags_hidden_tag_missing (browserShowing ["Feature"; "Bug"]) "Fix bug"
           ["Bug"; "Design"] O "Design").
  - right. now left.
  - intros w'. reflexivity.
Defined.

(* ================================================================== *)
(** ** [validateTestCase] *)

Section ValidateTestCase.

Context {num : Type} (numIsZero : num -> bool) (numToString : num -> string).

Local Open Scope list_scope.

(** The first loop passes when every field it visits is truthy. *)
Lemma checkRequired_passes (testCase : list (string * JSON.value num)) (fields : list string) :
  JSON.checkRequired numIsZero testCase fields = Returned tt <->
  forall f, In f fields -> JSON.truthy num numIsZero (JSON.get testCase f) = true.
Proof.
  induction fields as [|g fields IH]; cbn [JSON.checkRequired].
  - split; [intros _ f [] | reflexivity].
  - destruct (JSON.truthy num numIsZero (JSON.get testCase g)) eqn:T; cbn [negb].
    + rewrite IH. split.
      * intros H f [<- | Hin]; [exact T | now apply H].
      * intros H f Hin. apply H. now right.
    + split; [discriminate|]. intros H. specialize (H g (or_introl eq_refl)). congruence.
Qed.

(** The first loop throws for the first field that is not truthy. *)
Lemma checkRequired_first_missing (testCase : list (string * JSON.value num))
    (pre : list string) (f : string) (post : list string) :
  (forall g, In g pre -> JSON.truthy num numIsZero (JSON.get testCase g) = true) ->
  JSON.truthy num numIsZero (JSON.get testCase f) = false ->
  JSON.checkRequired numIsZero testCase (pre ++ f :: post)
  = Thrown ("Test case missing required field: " ++ f)%string.
Proof.
  induction pre as [|g pre IH]; intros Hpre Hf; cbn [app JSON.checkRequired].
  - now rewrite Hf.
  - rewrite (Hpre g (or_introl eq_refl)). cbn [negb]. apply IH; [|exact Hf].
    intros h Hin. apply Hpre. now right.
Qed.

(** X13: [validateTestCase] accepts a test case exactly when its six
    required fields are all truthy and [expectedTags] is an array with at
    least one item; nothing else is looked at (not the type of the other
    fields, not the items of the array). *)
Theorem validateTestCase_accepts_iff (testCase : list (string * JSON.value num)) :
  JSON.validateTestCase numIsZero numToString testCase = Returned tt <->
  (forall f, In f ["testId"; "description"; "project"; "taskName";
                   "expectedColumn"; "expectedTags"]%string ->
             JSON.truthy num numIsZero (JSON.get testCase f) = true) /\
  exists item items,
    JSON.get testCase "expectedTags" = Some (JSON.Array (item :: items)).
Proof.
  unfold JSON.validateTestCase.
  pose proof (checkRequired_passes testCase JSON.requiredFields) as P.
  unfold JSON.requiredFields in *.
  destruct (JSON.checkRequired numIsZero testCase _) as [[]|e].
  - destruct (JSON.get testCase "expectedTags") as [[| b | n | s | items | members]|] eqn:G;
      try (split; [discriminate | intros [_ [item [items' E]]]; discriminate E]).
    destruct items as [|item items]; cbn.
    + split; [discriminate | intros [_ [item [items' E]]]; discriminate E].
    + split; [intros _ | reflexivity]. split; [now apply P | now exists item, items].
  - split; [discriminate|]. intros [H _]. apply P in H. discriminate H.
Qed.

(** X14: the error of [validateTestCase] names the first required field, in
    the order testId, description, project, taskName, expectedColumn,
    expectedTags, that is absent or falsy ([null], [false], zero, the empty
    string); later fields are not looked at. *)
Theorem validateTestCase_first_missing_field (testCase : list (string * JSON.value num))
    (pre : list string) (f : string) (post : list string) :
  ["testId"; "description"; "project"; "taskName"; "expectedColumn";
   "expectedTags"]%string = pre ++ f :: post ->
  (forall g, In g pre -> JSON.truthy num numIsZero (JSON.get testCase g) = true) ->
  JSON.truthy num numIsZero (JSON.get testCase f) = false ->
  JSON.validateTestCase numIsZero numToString testCase
  = Thrown ("Test case missing required field: " ++ f)%string.
Proof.
  intros E Hpre Hf. unfold JSON.validateTestCase, JSON.requiredFields.
  rewrite E. now rewrite (checkRequired_first_missing testCase pre f post Hpre Hf).
Qed.


End ValidateTestCase.

(** X14 at work: a test case with an empty [description] and no [project]
    is refused for its [description]. *)
Lemma validateTestCase_first_missing_field_witness :
  JSON.validateTestCase noNumberIsZero noNumberToString
    [("testId", JSON.Str "TC002"); ("description", JSON.Str "");
     ("taskName", JSON.Str "Fix bug")]
  = Thrown "Test case missing required field: description".
Proof.
  apply (validateTestCase_first_missing_field noNumberIsZero noNumberToString
           [("testId", JSON.Str "TC002"); ("description", JSON.Str "");
            ("taskName", JSON.Str "Fix bug")]
           ["testId"] "description"
           ["project"; "taskName"; "expectedColumn"; "expectedTags"]).
  - reflexivity.
  - intros g [<- | []]. reflexivity.
  - reflexivity.
Defined.

